(** * Deck-slot allocation and custom-labware loading of the OT-2 PCR script

    A shallow embedding of [next_empty_slot] and [load_custom_labware] from
    [course_files/ot2_script_3.py].  Both helpers talk to the robot platform
    (the deck mapping, the file system, the JSON reader and the placement
    primitives); the embedding keeps the helpers as small programs over those
    calls and runs them against a world through a handler, so that results,
    state changes and the calls that were made can all be stated. *)

From Stdlib Require Import ZArith Lia.
From stdpp Require Import base option list sorting strings gmap.

Local Open Scope string_scope.
Local Open Scope list_scope.

(** ** Python values that reach [deck_position] *)

Inductive PyVal :=
| PyNone
| PyBool (b : bool)
| PyInt (z : Z)
| PyStr (s : string).

(** Python truth value, as [not deck_position] tests it. *)
Definition truthy (v : PyVal) : bool :=
  match v with
  | PyNone => false
  | PyBool b => b
  | PyInt z => negb (z =? 0)%Z
  | PyStr s => negb (String.eqb s "")
  end.

(** ** Exceptions *)

Inductive PyExc :=
| IndexError (msg : string)
| KeyError (slot : nat)
| FileNotFoundError (file : string)
| JSONDecodeError (doc : string)
| PlatformError (msg : string).

(** The two failures of reading a labware definition. *)
Definition definition_load_error (e : PyExc) : bool :=
  match e with
  | FileNotFoundError _ | JSONDecodeError _ => true
  | _ => false
  end.

(** ** Platform objects, as far as the helpers observe them *)

(** A parsed JSON document. *)
#[local] Unset Elimination Schemes.
Inductive Json :=
| JNull
| JBool (b : bool)
| JNum (z : Z)
| JStr (s : string)
| JArr (items : list Json)
| JObj (fields : list (string * Json)).
#[local] Set Elimination Schemes.

(** What sits in a deck slot: the helpers only ever take its [str]. *)
Record DeckItem := { item_str : string }.

(** The object the placement primitives hand back. *)
Record Labware := {
  lw_definition : Json;
  lw_label : option string;
  lw_parent : string
}.

(** [str(x)] for [x = protocol.deck[slot]], which is [None] or a deck item. *)
Definition py_str (x : option DeckItem) : string :=
  match x with
  | None => "None"
  | Some it => item_str it
  end.

(** The first argument of [load_custom_labware]: the protocol context (the
    deck) or any other object, here a hardware module context. *)
Inductive Parent :=
| ProtocolContext
| ModuleContext (module_slot : nat).

(** ** Platform calls and programs over them *)

Inductive Call :=
| DeckGetItem (slot : nat)          (* protocol.deck[slot] *)
| DeckIter                          (* iter(protocol.deck) *)
| OpenFile (file : string)          (* open(file) *)
| JsonLoad (doc : string)           (* json.load(labware_file) *)
| DeckLoadLabware (definition : Json) (location : PyVal) (label : option string)
| ModuleLoadLabware (module_slot : nat) (definition : Json) (label : option string).

(** The type of value each call answers with. *)
Definition Resp (c : Call) : Type :=
  match c with
  | DeckGetItem _ => option DeckItem
  | DeckIter => list nat
  | OpenFile _ => string
  | JsonLoad _ => Json
  | DeckLoadLabware _ _ _ => Labware
  | ModuleLoadLabware _ _ _ => Labware
  end.

Inductive Prog (A : Type) : Type :=
| Ret (a : A)
| Raise (e : PyExc)
| Do (c : Call) (k : Resp c → Prog A).

Arguments Ret {A} a.
Arguments Raise {A} e.
Arguments Do {A} c k.

Fixpoint bind {A B : Type} (p : Prog A) (f : A → Prog B) : Prog B :=
  match p with
  | Ret a => f a
  | Raise e => Raise e
  | Do c k => Do c (fun x => bind (k x) f)
  end.

Definition call (c : Call) : Prog (Resp c) := Do c Ret.

Notation "'let!' x ':=' p 'in' q" := (bind p (fun x => q))
  (at level 10, x name, p at level 100, q at level 200).

(** ** The two helpers *)

(** The body shared by both [for] loops of [next_empty_slot]: look each slot
    up, return the first that holds [None]; [fallthrough] is what runs when
    the loop ends without returning. *)
Fixpoint scan_slots (slots : list nat) (fallthrough : Prog nat) : Prog nat :=
  match slots with
  | [] => fallthrough
  | slot :: rest =>
      let! labware := call (DeckGetItem slot) in
      match labware with
      | None => Ret slot
      | Some _ => scan_slots rest fallthrough
      end
  end.

Definition thermocycler_on_7 : string := "Thermocycler Module on 7".

Definition next_empty_slot : Prog nat :=
  let! item7 := call (DeckGetItem 7) in
  if String.eqb (py_str item7) thermocycler_on_7 then
    scan_slots [1; 2; 3; 4; 5; 6; 9]
      (Raise (IndexError "No Deck Slots Remaining"))
  else
    let! slots := call DeckIter in
    scan_slots slots (Raise (IndexError "No Deck Slots Remaining")).

(** [with open(file) as labware_file: labware_file = json.load(labware_file)] *)
Definition read_definition (file : string) : Prog Json :=
  let! doc := call (OpenFile file) in
  call (JsonLoad doc).

Definition load_custom_labware (parent : Parent) (file : string)
    (deck_position : PyVal) (label : option string) : Prog Labware :=
  let! labware_file := read_definition file in
  match parent with
  | ProtocolContext =>
      let! deck_position :=
        (if negb (truthy deck_position) then
           let! slot := next_empty_slot in Ret (PyInt (Z.of_nat slot))
         else Ret deck_position) in
      call (DeckLoadLabware labware_file deck_position label)
  | ModuleContext m =>
      call (ModuleLoadLabware m labware_file label)
  end.

(** ** Worlds and the platform *)

(** The state the calls act on.  Slot [s] of the deck is entry [s - 1] of
    [deck]; an entry is [None] while the slot is empty. *)
Record World := {
  deck : list (option DeckItem);
  files : gmap string string;
  module_bays : gmap nat Labware
}.

(** The parts of the platform this repository does not implement: the JSON
    reader and the two placement primitives
    [ProtocolContext.load_labware_from_definition(definition, location, label)]
    and [ModuleContext.load_labware_from_definition(definition, label)]. *)
Class Platform := {
  json_loads : string → option Json;
  deck_load_labware_from_definition :
    Json → PyVal → option string → World → (PyExc + Labware) * World;
  module_load_labware_from_definition :
    nat → Json → option string → World → (PyExc + Labware) * World
}.

(** [protocol.deck[slot]]: a key outside [1..N] is an error. *)
Definition deck_getitem (d : list (option DeckItem)) (slot : nat)
    : PyExc + option DeckItem :=
  match slot with
  | 0 => inl (KeyError slot)
  | S i =>
      match d !! i with
      | Some x => inr x
      | None => inl (KeyError slot)
      end
  end.

(** The keys of the deck, in the order iteration yields them. *)
Definition deck_keys (d : list (option DeckItem)) : list nat :=
  seq 1 (length d).

Section Run.
Context `{Platform}.

Definition handle (c : Call) (w : World) : (PyExc + Resp c) * World :=
  match c return (PyExc + Resp c) * World with
  | DeckGetItem slot => (deck_getitem (deck w) slot, w)
  | DeckIter => (inr (deck_keys (deck w)), w)
  | OpenFile file =>
      (match files w !! file with
       | Some doc => inr doc
       | None => inl (FileNotFoundError file)
       end, w)
  | JsonLoad doc =>
      (match json_loads doc with
       | Some j => inr j
       | None => inl (JSONDecodeError doc)
       end, w)
  | DeckLoadLabware definition location label =>
      deck_load_labware_from_definition definition location label w
  | ModuleLoadLabware m definition label =>
      module_load_labware_from_definition m definition label w
  end.

(** What a run leaves behind: the value or the exception that escaped, the
    final world, and the platform calls in the order they were made. *)
Record Outcome (A : Type) := {
  result : PyExc + A;
  final : World;
  trace : list Call
}.
Arguments result {A} _.
Arguments final {A} _.
Arguments trace {A} _.

Definition logged {A : Type} (c : Call) (o : Outcome A) : Outcome A :=
  {| result := result o; final := final o; trace := c :: trace o |}.

Fixpoint run {A : Type} (p : Prog A) (w : World) : Outcome A :=
  match p with
  | Ret a => {| result := inr a; final := w; trace := [] |}
  | Raise e => {| result := inl e; final := w; trace := [] |}
  | Do c k =>
      match handle c w with
      | (inl e, w') => {| result := inl e; final := w'; trace := [c] |}
      | (inr x, w') => logged c (run (k x) w')
      end
  end.
End Run.

Arguments result {A} _.
Arguments final {A} _.
Arguments trace {A} _.

(** ** Reading a deck *)

(** Slot [s] exists and holds nothing. *)
Definition is_empty (d : list (option DeckItem)) (s : nat) : bool :=
  match deck_getitem d s with
  | inr None => true
  | _ => false
  end.

(** Slot [s] exists and holds something. *)
Definition is_occupied (d : list (option DeckItem)) (s : nat) : bool :=
  match deck_getitem d s with
  | inr (Some _) => true
  | _ => false
  end.

(** Slot 7 holds what the code recognises as the thermocycler. *)
Definition thermocycler_loaded (d : list (option DeckItem)) : bool :=
  match deck_getitem d 7 with
  | inr x => String.eqb (py_str x) thermocycler_on_7
  | inl _ => false
  end.

(** Slot [s] is a key of the deck. *)
Definition has_slot (d : list (option DeckItem)) (s : nat) : bool :=
  match deck_getitem d s with
  | inr _ => true
  | inl _ => false
  end.

(** The slots the thermocycler covers. *)
Definition thermocycler_footprint : list nat := [7; 8; 10; 11].

(** The invariant of the data model, in the spec's words: a slot is
    allocatable when it holds nothing and is not part of a reserved module
    footprint (the footprint is reserved while the module is present). *)
Definition allocatable (d : list (option DeckItem)) (s : nat) : bool :=
  is_empty d s &&
  negb (thermocycler_loaded d && bool_decide (s ∈ thermocycler_footprint)).

(** [s] is the first empty slot of the ascending candidate list [cands]. *)
Definition smallest_empty_among (cands : list nat)
    (d : list (option DeckItem)) (s : nat) : Prop :=
  s ∈ cands ∧ is_empty d s = true ∧
  ∀ s', s' ∈ cands → s' < s → is_empty d s' = false.

Definition capacity_exhausted : PyExc := IndexError "No Deck Slots Remaining".

(** Calls that look at the deck: the only calls the slot finder makes. *)
Definition reads_deck (c : Call) : bool :=
  match c with
  | DeckGetItem _ | DeckIter => true
  | _ => false
  end.

(** Calls that register labware. *)
Definition places_labware (c : Call) : bool :=
  match c with
  | DeckLoadLabware _ _ _ | ModuleLoadLabware _ _ _ => true
  | _ => false
  end.

(** The contract the round trip relies on: a placement primitive that
    succeeds hands back a labware built from the definition and the label it
    was given. *)
Definition faithful_placement (P : Platform) : Prop :=
  (∀ d loc label w lw w',
     deck_load_labware_from_definition d loc label w = (inr lw, w') →
     lw_definition lw = d ∧ lw_label lw = label) ∧
  (∀ m d label w lw w',
     module_load_labware_from_definition m d label w = (inr lw, w') →
     lw_definition lw = d ∧ lw_label lw = label).

(** The slots [next_empty_slot] is prepared to hand out on a given deck. *)
Definition candidate_slots (d : list (option DeckItem)) : list nat :=
  if thermocycler_loaded d then [1; 2; 3; 4; 5; 6; 9] else deck_keys d.

(** The contract successive allocations rely on: a deck placement that
    succeeds at an integer slot puts an item into that slot of the deck and
    leaves the other slots as they were. *)
Definition registers_on_deck (P : Platform) : Prop :=
  ∀ d s label w lw w',
    deck_load_labware_from_definition d (PyInt (Z.of_nat s)) label w = (inr lw, w') →
    ∃ it, deck w' = <[pred s := Some it]> (deck w).

(** ** A small simulated platform

    One instance of [Platform], used to run the helpers on concrete worlds.
    Its JSON reader knows the five shortest documents; its deck primitive
    takes an integer slot, refuses a slot that is missing or taken and
    otherwise registers the labware there; its module primitive registers
    the labware in the module's bay unless the bay is taken. *)
Module Sim.

Definition parse (doc : string) : option Json :=
  if String.eqb doc "{}" then Some (JObj [])
  else if String.eqb doc "[]" then Some (JArr [])
  else if String.eqb doc "null" then Some JNull
  else if String.eqb doc "true" then Some (JBool true)
  else if String.eqb doc "false" then Some (JBool false)
  else None.

Definition item_of (lw : Labware) : DeckItem :=
  {| item_str := default "labware" (lw_label lw) +:+ " on " +:+ lw_parent lw |}.

Definition with_deck (w : World) (d : list (option DeckItem)) : World :=
  {| deck := d; files := files w; module_bays := module_bays w |}.

Definition with_bays (w : World) (b : gmap nat Labware) : World :=
  {| deck := deck w; files := files w; module_bays := b |}.

Definition slot_name (slot : nat) : string :=
  nth slot ["0"; "1"; "2"; "3"; "4"; "5"; "6"; "7"; "8"; "9"; "10"; "11"; "12"] "?".

Definition place_on_deck (definition : Json) (location : PyVal)
    (label : option string) (w : World) : (PyExc + Labware) * World :=
  match location with
  | PyInt z =>
      let slot := Z.to_nat z in
      match deck_getitem (deck w) slot with
      | inr None =>
          let lw := {| lw_definition := definition; lw_label := label;
                       lw_parent := slot_name slot |} in
          (inr lw, with_deck w (<[pred slot := Some (item_of lw)]> (deck w)))
      | inr (Some _) => (inl (PlatformError "slot is occupied"), w)
      | inl e => (inl e, w)
      end
  | _ => (inl (PlatformError "not a slot"), w)
  end.

Definition place_in_module (m : nat) (definition : Json)
    (label : option string) (w : World) : (PyExc + Labware) * World :=
  match module_bays w !! m with
  | Some _ => (inl (PlatformError "module is occupied"), w)
  | None =>
      let lw := {| lw_definition := definition; lw_label := label;
                   lw_parent := slot_name m |} in
      (inr lw, with_bays w (<[m := lw]> (module_bays w)))
  end.

Definition platform : Platform :=
  {| json_loads := parse;
     deck_load_labware_from_definition := place_on_deck;
     module_load_labware_from_definition := place_in_module |}.

Definition labware (name : string) : option DeckItem :=
  Some {| item_str := name |}.

(** The deck of the spec's example: slots 1 and 2 taken, the thermocycler
    on 7, the slots it covers reporting empty, like every other slot. *)
Definition thermocycler_deck : list (option DeckItem) :=
  [labware "A on 1"; labware "B on 2"; None; None; None; None;
   labware thermocycler_on_7; None; None; None; None; None].

(** Slots 1 and 2 taken, nothing else on the deck. *)
Definition plain_deck : list (option DeckItem) :=
  [labware "A on 1"; labware "B on 2"; None; None; None; None;
   None; None; None; None; None; None].

(** Every slot taken, no thermocycler. *)
Definition full_deck : list (option DeckItem) :=
  map (fun s => labware ("labware on " +:+ slot_name s)) (seq 1 12).

(** The thermocycler on 7, slots 1 to 6 and 9 taken, slot 12 empty. *)
Definition slot_12_free_deck : list (option DeckItem) :=
  [labware "A on 1"; labware "B on 2"; labware "C on 3"; labware "D on 4";
   labware "E on 5"; labware "F on 6"; labware thermocycler_on_7; None;
   labware "G on 9"; None; None; None].

Definition world (d : list (option DeckItem)) : World :=
  {| deck := d;
     files := {[ "labware/rack.json" := "{}"; "labware/broken.json" := "{" ]};
     module_bays := ∅ |}.

End Sim.

Local Close Scope string_scope.

(** ** How programs run *)

(** Sequencing of outcomes: the second part runs from where the first
    stopped, unless the first raised. *)
Definition after {A B : Type} (o : Outcome A) (k : A → World → Outcome B)
    : Outcome B :=
  match result o with
  | inr a =>
      let o' := k a (final o) in
      {| result := result o'; final := final o'; trace := trace o ++ trace o' |}
  | inl e => {| result := inl e; final := final o; trace := trace o |}
  end.

(** Go through the members of an explicit list of slots one by one. *)
Ltac each_member H tac :=
  repeat (apply elem_of_cons in H as [->|H]; [tac|]);
  by apply elem_of_nil in H.

(** A number that is written out and is not in an explicit list. *)
Ltac not_member H :=
  let Heq := fresh in
  repeat (apply elem_of_cons in H as [Heq|H]; [discriminate Heq|]);
  by apply elem_of_nil in H.

Section RunFacts.
Context `{Platform}.

Lemma run_bind {A B : Type} (p : Prog A) (f : A → Prog B) (w : World) :
  run (bind p f) w = after (run p w) (fun a w' => run (f a) w').
Proof.
  revert w. induction p as [a|e|c k IH]; intros w; simpl.
  - unfold after; simpl. by destruct (run (f a) w).
  - reflexivity.
  - destruct (handle c w) as [[e|x] w']; [reflexivity|].
    rewrite IH. unfold after, logged; simpl.
    by destruct (result (run (k x) w')).
Qed.

Lemma run_scan_cons (s : nat) (rest : list nat) (ft : Prog nat) (w : World) :
  run (scan_slots (s :: rest) ft) w =
    match deck_getitem (deck w) s with
    | inl e => {| result := inl e; final := w; trace := [DeckGetItem s] |}
    | inr None => {| result := inr s; final := w; trace := [DeckGetItem s] |}
    | inr (Some _) => logged (DeckGetItem s) (run (scan_slots rest ft) w)
    end.
Proof. simpl. by destruct (deck_getitem (deck w) s) as [e|[it|]]. Qed.

(** The loop returns the first empty slot it meets. *)
Lemma run_scan_found (pre : list nat) (s : nat) (post : list nat)
    (ft : Prog nat) (w : World) :
  Forall (fun s' => is_occupied (deck w) s' = true) pre →
  is_empty (deck w) s = true →
  run (scan_slots (pre ++ s :: post) ft) w =
    {| result := inr s; final := w; trace := DeckGetItem <$> (pre ++ [s]) |}.
Proof.
  intros Hpre Hs. induction Hpre as [|s' pre Hs' _ IH].
  - rewrite app_nil_l, run_scan_cons. unfold is_empty in Hs.
    by destruct (deck_getitem (deck w) s) as [e|[it|]].
  - rewrite <- app_comm_cons, run_scan_cons. unfold is_occupied in Hs'.
    destruct (deck_getitem (deck w) s') as [e|[it|]]; try done.
    by rewrite IH.
Qed.

(** The loop stops at the first slot whose lookup fails. *)
Lemma run_scan_failed (pre : list nat) (s : nat) (post : list nat)
    (ft : Prog nat) (w : World) (e : PyExc) :
  Forall (fun s' => is_occupied (deck w) s' = true) pre →
  deck_getitem (deck w) s = inl e →
  run (scan_slots (pre ++ s :: post) ft) w =
    {| result := inl e; final := w; trace := DeckGetItem <$> (pre ++ [s]) |}.
Proof.
  intros Hpre Hs. induction Hpre as [|s' pre Hs' _ IH].
  - by rewrite app_nil_l, run_scan_cons, Hs.
  - rewrite <- app_comm_cons, run_scan_cons. unfold is_occupied in Hs'.
    destruct (deck_getitem (deck w) s') as [e'|[it|]]; try done.
    by rewrite IH.
Qed.

(** When every slot is taken the loop ends and the code after it runs. *)
Lemma run_scan_exhausted (slots : list nat) (ft : Prog nat) (w : World) :
  Forall (fun s' => is_occupied (deck w) s' = true) slots →
  run (scan_slots slots ft) w =
    {| result := result (run ft w); final := final (run ft w);
       trace := (DeckGetItem <$> slots) ++ trace (run ft w) |}.
Proof.
  induction 1 as [|s' pre Hs' _ IH].
  - simpl. by destruct (run ft w).
  - rewrite run_scan_cons. unfold is_occupied in Hs'.
    destruct (deck_getitem (deck w) s') as [e'|[it|]]; try done.
    by rewrite IH.
Qed.
End RunFacts.

(** Every scan is in one of the three situations above. *)
Lemma scan_cases (d : list (option DeckItem)) (slots : list nat) :
  Forall (fun s' => is_occupied d s' = true) slots ∨
  ∃ pre s post, slots = pre ++ s :: post ∧
    Forall (fun s' => is_occupied d s' = true) pre ∧
    (is_empty d s = true ∨ ∃ e, deck_getitem d s = inl e).
Proof.
  induction slots as [|s rest IH]; [by left|].
  destruct (deck_getitem d s) as [e|[it|]] eqn:Hs.
  - right. exists [], s, rest. split_and!; [done|done|]. right. by exists e.
  - destruct IH as [IH|(pre & s' & post & -> & Hpre & Hs')].
    + left. constructor; [|done]. unfold is_occupied. by rewrite Hs.
    + right. exists (s :: pre), s', post. split_and!; [done| |done].
      constructor; [|done]. unfold is_occupied. by rewrite Hs.
  - right. exists [], s, rest. split_and!; [done|done|].
    left. unfold is_empty. by rewrite Hs.
Qed.

(** ** Facts about decks *)

Lemma occupied_not_empty (d : list (option DeckItem)) (s : nat) :
  is_occupied d s = true → is_empty d s = false.
Proof.
  unfold is_occupied, is_empty. by destruct (deck_getitem d s) as [e|[it|]].
Qed.

Lemma has_slot_iff (d : list (option DeckItem)) (s : nat) :
  has_slot d s = true ↔ 1 ≤ s ≤ length d.
Proof.
  unfold has_slot, deck_getitem. destruct s as [|i]; [split; [done|lia]|].
  destruct (d !! i) as [x|] eqn:Hi.
  - apply lookup_lt_Some in Hi. split; [lia|done].
  - apply lookup_ge_None in Hi. split; [done|lia].
Qed.

Lemma is_empty_has_slot (d : list (option DeckItem)) (s : nat) :
  is_empty d s = true → has_slot d s = true.
Proof.
  unfold is_empty, has_slot. by destruct (deck_getitem d s) as [e|[it|]].
Qed.

(** A slot of the deck is either empty or occupied. *)
Lemma slot_occupied_or_empty (d : list (option DeckItem)) (s : nat) :
  has_slot d s = true → is_empty d s = false → is_occupied d s = true.
Proof.
  unfold has_slot, is_empty, is_occupied.
  by destruct (deck_getitem d s) as [e|[it|]].
Qed.

(** Below an existing slot every positive number is a slot too. *)
Lemma occupied_below (d : list (option DeckItem)) (s s' : nat) :
  is_empty d s = true → 1 ≤ s' → s' < s →
  is_empty d s' = false → is_occupied d s' = true.
Proof.
  intros Hs%is_empty_has_slot%has_slot_iff ? ? ?.
  apply slot_occupied_or_empty; [|done]. apply has_slot_iff. lia.
Qed.

Lemma seq_strongly_sorted (a n : nat) : StronglySorted lt (seq a n).
Proof.
  revert a. induction n as [|n IH]; intros a; simpl; constructor; [apply IH|].
  apply Forall_seq. lia.
Qed.

Lemma seq_split_at (a n s : nat) :
  a ≤ s < a + n →
  seq a n = seq a (s - a) ++ s :: seq (S s) (a + n - S s).
Proof.
  intros Hs.
  assert (Hn : n = (s - a) + S (a + n - S s)) by lia.
  rewrite Hn at 1. rewrite seq_app. simpl.
  by replace (a + (s - a)) with s by lia.
Qed.

Lemma thermocycler_candidates_sorted :
  StronglySorted lt [1; 2; 3; 4; 5; 6; 9].
Proof. repeat (constructor; try lia). Qed.

Section ScanFacts.
Context `{Platform}.

(** Over an ascending list of slot numbers the loop returns exactly the
    smallest empty slot of the list. *)
Lemma scan_smallest (cands : list nat) (e : PyExc) (w : World) (s : nat) :
  StronglySorted lt cands →
  Forall (fun c => 1 ≤ c) cands →
  result (run (scan_slots cands (Raise e)) w) = inr s ↔
  smallest_empty_among cands (deck w) s.
Proof.
  intros Hsorted Hpos. split.
  - destruct (scan_cases (deck w) cands)
      as [Hall|(pre & s0 & post & -> & Hpre & [Hemp|[e' He']])].
    + by rewrite run_scan_exhausted.
    + rewrite run_scan_found by done. simpl. intros [= <-].
      split_and!; [set_solver|done|].
      intros s' [Hin|Hin]%elem_of_app Hlt.
      * apply occupied_not_empty. by eapply Forall_forall in Hpre.
      * apply StronglySorted_app_1_r, StronglySorted_cons in Hsorted.
        destruct Hsorted as [Hgt _].
        apply elem_of_cons in Hin as [->|Hin]; [lia|].
        eapply Forall_forall in Hgt; [|done]. lia.
    + by rewrite (run_scan_failed _ _ _ _ _ e').
  - intros (Hin & Hemp & Hsmall).
    apply list_elem_of_split in Hin as (pre & post & ->).
    rewrite run_scan_found; [done| |done].
    apply Forall_forall. intros s' Hs'.
    assert (s' < s) by (eapply StronglySorted_app_1_elem_of; set_solver).
    assert (1 ≤ s') by (eapply Forall_forall in Hpos; [done|set_solver]).
    eapply occupied_below; [done..|]. apply Hsmall; [set_solver|done].
Qed.

(** The scan never changes the world. *)
Lemma scan_final (slots : list nat) (e : PyExc) (w : World) :
  final (run (scan_slots slots (Raise e)) w) = w.
Proof.
  induction slots as [|s rest IH]; [done|].
  rewrite run_scan_cons. by destruct (deck_getitem (deck w) s) as [e'|[it|]].
Qed.

(** The scan only ever looks at the slots it was given. *)
Lemma scan_trace (slots : list nat) (e : PyExc) (w : World) :
  trace (run (scan_slots slots (Raise e)) w) ⊆ DeckGetItem <$> slots.
Proof.
  induction slots as [|s rest IH]; [done|].
  rewrite run_scan_cons.
  destruct (deck_getitem (deck w) s) as [e'|[it|]]; simpl.
  - apply list_subseteq_skip, list_subseteq_nil.
  - by apply list_subseteq_skip.
  - apply list_subseteq_skip, list_subseteq_nil.
Qed.

(** The three ways [next_empty_slot] starts. *)
Lemma run_next_empty_slot_thermocycler (w : World) :
  thermocycler_loaded (deck w) = true →
  run next_empty_slot w =
    logged (DeckGetItem 7)
      (run (scan_slots [1; 2; 3; 4; 5; 6; 9] (Raise capacity_exhausted)) w).
Proof.
  unfold thermocycler_loaded, next_empty_slot. cbn [bind call run handle].
  destruct (deck_getitem (deck w) 7) as [e|x]; [done|].
  by intros ->.
Qed.

Lemma run_next_empty_slot_plain (w : World) :
  has_slot (deck w) 7 = true →
  thermocycler_loaded (deck w) = false →
  run next_empty_slot w =
    logged (DeckGetItem 7) (logged DeckIter
      (run (scan_slots (deck_keys (deck w)) (Raise capacity_exhausted)) w)).
Proof.
  unfold has_slot, thermocycler_loaded, next_empty_slot.
  cbn [bind call run handle].
  destruct (deck_getitem (deck w) 7) as [e|x]; [done|].
  by intros _ ->.
Qed.

Lemma run_next_empty_slot_no_slot_7 (w : World) :
  has_slot (deck w) 7 = false →
  run next_empty_slot w =
    {| result := inl (KeyError 7); final := w; trace := [DeckGetItem 7] |}.
Proof.
  unfold has_slot, next_empty_slot. cbn [bind call run handle].
  unfold deck_getitem.
  by destruct (deck w !! 6).
Qed.
End ScanFacts.

(** ** The slot finder *)

(** C1: when slot 7 holds the thermocycler, [next_empty_slot] returns a slot
    exactly when that slot is the smallest empty one among 1, 2, 3, 4, 5, 6
    and 9; it runs without changing the world and looks at no slot other
    than 7 and those seven, so what slots 8, 10 and 11 report plays no
    part. *)
Theorem next_empty_slot_with_thermocycler {P : Platform} (w : World) :
  thermocycler_loaded (deck w) = true →
  (∀ s, result (run next_empty_slot w) = inr s ↔
        smallest_empty_among [1; 2; 3; 4; 5; 6; 9] (deck w) s) ∧
  trace (run next_empty_slot w) ⊆ DeckGetItem <$> [7; 1; 2; 3; 4; 5; 6; 9].
Proof.
  intros Hth. rewrite run_next_empty_slot_thermocycler by done. split.
  - intros s. cbn [logged result].
    apply scan_smallest; [apply thermocycler_candidates_sorted|].
    repeat (constructor; try lia).
  - cbn [logged trace]. apply list_subseteq_skip, scan_trace.
Qed.

Lemma next_empty_slot_with_thermocycler_witness :
  let w := Sim.world Sim.thermocycler_deck in
  thermocycler_loaded (deck w) = true ∧
  is_empty (deck w) 8 = true ∧
  result (run (H := Sim.platform) next_empty_slot w) = inr 3.
Proof.
  intros w. split_and!; [reflexivity..|].
  apply (proj1 (next_empty_slot_with_thermocycler (P := Sim.platform) w eq_refl)).
  split_and!; [set_solver|reflexivity|].
  intros s' Hin Hlt. each_member Hin ltac:(try lia; reflexivity).
Defined.

(** C2: when the deck has a slot 7 and it does not hold the thermocycler,
    [next_empty_slot] walks the slots 1..N in ascending order and returns a
    slot exactly when it is the smallest empty one. *)
Theorem next_empty_slot_without_thermocycler {P : Platform} (w : World) :
  has_slot (deck w) 7 = true →
  thermocycler_loaded (deck w) = false →
  (∀ s, result (run next_empty_slot w) = inr s ↔
        smallest_empty_among (seq 1 (length (deck w))) (deck w) s) ∧
  (∀ s, result (run next_empty_slot w) = inr s →
        trace (run next_empty_slot w) =
          DeckGetItem 7 :: DeckIter :: (DeckGetItem <$> seq 1 s)).
Proof.
  intros H7 Hth. rewrite run_next_empty_slot_plain by done.
  cbn [logged result trace]. unfold deck_keys.
  assert (Hsm : ∀ s,
    result (run (scan_slots (seq 1 (length (deck w))) (Raise capacity_exhausted)) w) = inr s ↔
    smallest_empty_among (seq 1 (length (deck w))) (deck w) s).
  { intros s. apply scan_smallest; [apply seq_strongly_sorted|].
    apply Forall_seq. lia. }
  split; [done|].
  intros s Hs. do 2 f_equal.
  apply Hsm in Hs as (Hin & Hemp & Hsmall).
  apply elem_of_seq in Hin.
  rewrite (seq_split_at 1 _ s) by done.
  rewrite run_scan_found; [| |done].
  - cbn [result trace]. f_equal.
    rewrite (seq_split_at 1 s s) by lia.
    replace (1 + s - S s) with 0 by lia. done.
  - apply Forall_seq. intros j Hj.
    eapply occupied_below; [done|lia|lia|].
    apply Hsmall; [|lia]. apply elem_of_seq. lia.
Qed.

Lemma next_empty_slot_without_thermocycler_witness :
  let w := Sim.world Sim.plain_deck in
  has_slot (deck w) 7 = true ∧
  thermocycler_loaded (deck w) = false ∧
  result (run (H := Sim.platform) next_empty_slot w) = inr 3.
Proof.
  intros w. split_and!; [reflexivity..|].
  apply (proj1 (next_empty_slot_without_thermocycler (P := Sim.platform) w eq_refl eq_refl)).
  split_and!; [apply elem_of_seq; simpl; lia|reflexivity|].
  intros s' Hin Hlt. apply elem_of_seq in Hin.
  destruct s' as [|[|[|s']]]; [lia|reflexivity..|lia].
Defined.

Section ScanSuccess.
Context `{Platform}.

(** Over an ascending list of slot numbers the loop succeeds exactly when
    one of the listed slots is empty. *)
Lemma scan_succeeds_iff (cands : list nat) (e : PyExc) (w : World) :
  StronglySorted lt cands →
  Forall (fun c => 1 ≤ c) cands →
  (∃ s, result (run (scan_slots cands (Raise e)) w) = inr s) ↔
  (∃ s, s ∈ cands ∧ is_empty (deck w) s = true).
Proof.
  intros Hsorted Hpos. split.
  - intros [s Hs]. exists s.
    apply scan_smallest in Hs as (? & ? & _); done.
  - intros (s & Hin & Hemp).
    destruct (scan_cases (deck w) cands)
      as [Hall|(pre & s0 & post & -> & Hpre & [Hs0|[e' He']])].
    + eapply Forall_forall in Hall; [|done].
      apply occupied_not_empty in Hall. congruence.
    + exists s0. by rewrite run_scan_found.
    + exfalso.
      assert (H0 : has_slot (deck w) s0 = false)
        by (unfold has_slot; by rewrite He').
      apply elem_of_app in Hin as [Hin|Hin].
      * eapply Forall_forall in Hpre; [|done].
        apply occupied_not_empty in Hpre. congruence.
      * apply elem_of_cons in Hin as [->|Hin].
        { apply is_empty_has_slot in Hemp. congruence. }
        assert (s0 < s).
        { apply StronglySorted_app_1_r, StronglySorted_cons in Hsorted.
          destruct Hsorted as [Hgt _]. by eapply Forall_forall in Hgt. }
        assert (1 ≤ s0) by (eapply Forall_forall in Hpos; [done|set_solver]).
        apply is_empty_has_slot, has_slot_iff in Hemp.
        assert (has_slot (deck w) s0 = true) by (apply has_slot_iff; lia).
        congruence.
Qed.

Lemma run_next_empty_slot_candidates (w : World) :
  has_slot (deck w) 7 = true →
  result (run next_empty_slot w) =
    result (run (scan_slots (candidate_slots (deck w))
                   (Raise capacity_exhausted)) w) ∧
  final (run next_empty_slot w) = w.
Proof.
  intros H7. unfold candidate_slots.
  destruct (thermocycler_loaded (deck w)) eqn:Hth.
  - rewrite run_next_empty_slot_thermocycler by done.
    cbn [logged result final]. by rewrite scan_final.
  - rewrite run_next_empty_slot_plain by done.
    cbn [logged result final]. by rewrite scan_final.
Qed.

Lemma candidate_slots_sorted (d : list (option DeckItem)) :
  StronglySorted lt (candidate_slots d) ∧
  Forall (fun c => 1 ≤ c) (candidate_slots d).
Proof.
  unfold candidate_slots, deck_keys. destruct (thermocycler_loaded d).
  - split; [apply thermocycler_candidates_sorted|].
    repeat (constructor; try lia).
  - split; [apply seq_strongly_sorted|]. apply Forall_seq. lia.
Qed.

Lemma next_empty_slot_final (w : World) :
  final (run next_empty_slot w) = w.
Proof.
  destruct (has_slot (deck w) 7) eqn:H7.
  - by apply run_next_empty_slot_candidates.
  - by rewrite run_next_empty_slot_no_slot_7.
Qed.
End ScanSuccess.

Lemma candidate_allocatable (d : list (option DeckItem)) (s : nat) :
  s ∈ candidate_slots d → allocatable d s = is_empty d s.
Proof.
  unfold candidate_slots, allocatable.
  destruct (thermocycler_loaded d); intros Hin.
  - each_member Hin ltac:(by rewrite andb_true_r).
  - by rewrite andb_true_r.
Qed.

(** C4: [next_empty_slot] never changes the world; and on a deck that has
    the slots up to 9, when no slot is allocatable it fails with
    [IndexError('No Deck Slots Remaining')]. *)
Theorem next_empty_slot_exhausted {P : Platform} (w : World) :
  final (run next_empty_slot w) = w ∧
  (has_slot (deck w) 9 = true →
   (∀ s, allocatable (deck w) s = false) →
   result (run next_empty_slot w) = inl capacity_exhausted).
Proof.
  split; [apply next_empty_slot_final|].
  intros H9%has_slot_iff Hfull.
  assert (H7 : has_slot (deck w) 7 = true) by (apply has_slot_iff; lia).
  destruct (run_next_empty_slot_candidates w H7) as [-> _].
  rewrite run_scan_exhausted; [done|].
  apply Forall_forall. intros s Hs.
  apply slot_occupied_or_empty.
  - apply has_slot_iff. revert Hs. unfold candidate_slots, deck_keys.
    destruct (thermocycler_loaded (deck w)).
    + intros Hs. each_member Hs lia.
    + intros Hs%elem_of_seq. lia.
  - rewrite <- (candidate_allocatable _ _ Hs). apply Hfull.
Qed.

Lemma next_empty_slot_exhausted_witness :
  let w := Sim.world Sim.full_deck in
  has_slot (deck w) 9 = true ∧
  final (run (H := Sim.platform) next_empty_slot w) = w ∧
  result (run (H := Sim.platform) next_empty_slot w) = inl capacity_exhausted.
Proof.
  intros w.
  destruct (next_empty_slot_exhausted (P := Sim.platform) w) as [Hfin Hres].
  split_and!; [reflexivity|exact Hfin|].
  apply Hres; [reflexivity|].
  intros s. unfold allocatable.
  do 13 (destruct s as [|s]; [reflexivity|]).
  reflexivity.
Defined.

(** C3, as stated, fails: with the thermocycler on 7 and slots 1 to 6 and 9
    taken, slot 12 is empty and outside the footprint, hence allocatable,
    and yet [next_empty_slot] raises the capacity error. *)
Lemma next_empty_slot_ignores_slot_12 :
  let w := Sim.world Sim.slot_12_free_deck in
  thermocycler_loaded (deck w) = true ∧
  is_empty (deck w) 12 = true ∧
(12 ∉ thermocycler_footprint) ∧
  allocatable (deck w) 12 = true ∧
  result (run (H := Sim.platform) next_empty_slot w) = inl capacity_exhausted ∧
  ¬ ((∃ s, result (run (H := Sim.platform) next_empty_slot w) = inr s) ↔
     (∃ s, allocatable (deck w) s = true)).
Proof.
  intros w. split_and!; try reflexivity.
  - intros Hin. unfold thermocycler_footprint in Hin.
    repeat (apply elem_of_cons in Hin as [Hin|Hin]; [discriminate Hin|]).
    by apply elem_of_nil in Hin.
  - intros [_ Hback]. destruct Hback as [s Hs]; [by exists 12|].
    discriminate Hs.
Qed.

(** C3, amended: on a deck that has a slot 7, [next_empty_slot] returns a
    slot exactly when one of its candidate slots is empty (1 to 6 and 9 with
    the thermocycler on 7, every slot 1..N otherwise); the slot it returns
    is allocatable; and with the thermocycler on 7 and one of the slots 1 to
    6 and 9 empty it does not raise the capacity error. *)
Theorem next_empty_slot_succeeds_iff {P : Platform} (w : World) :
  has_slot (deck w) 7 = true →
  ((∃ s, result (run next_empty_slot w) = inr s) ↔
   (∃ s, s ∈ candidate_slots (deck w) ∧ is_empty (deck w) s = true)) ∧
  (∀ s, result (run next_empty_slot w) = inr s →
        allocatable (deck w) s = true) ∧
  (thermocycler_loaded (deck w) = true →
   (∃ s, s ∈ [1; 2; 3; 4; 5; 6; 9] ∧ is_empty (deck w) s = true) →
   result (run next_empty_slot w) ≠ inl capacity_exhausted).
Proof.
  intros H7.
  destruct (run_next_empty_slot_candidates w H7) as [Hres _].
  destruct (candidate_slots_sorted (deck w)) as [Hsorted Hpos].
  assert (Hiff := scan_succeeds_iff (candidate_slots (deck w))
                    capacity_exhausted w Hsorted Hpos).
  rewrite <- Hres in Hiff.
  split_and!; [done| |].
  - intros s Hs. rewrite Hres in Hs.
    apply scan_smallest in Hs as (Hin & Hemp & _); [|done..].
    by rewrite candidate_allocatable.
  - intros Hth Hex. unfold candidate_slots in Hiff. rewrite Hth in Hiff.
    apply Hiff in Hex as [s Hs]. by rewrite Hs.
Qed.

Lemma next_empty_slot_succeeds_iff_witness :
  let w := Sim.world Sim.thermocycler_deck in
  has_slot (deck w) 7 = true ∧
  thermocycler_loaded (deck w) = true ∧
  (∃ s, result (run (H := Sim.platform) next_empty_slot w) = inr s) ∧
  result (run (H := Sim.platform) next_empty_slot w) ≠ inl capacity_exhausted.
Proof.
  intros w.
  destruct (next_empty_slot_succeeds_iff (P := Sim.platform) w eq_refl)
    as (Hiff & _ & Hno).
  assert (Hex : ∃ s, s ∈ [1; 2; 3; 4; 5; 6; 9] ∧ is_empty (deck w) s = true).
  { exists 3. split; [|reflexivity]. rewrite !elem_of_cons. auto. }
  split_and!; [reflexivity|reflexivity| |].
  - apply Hiff. exact Hex.
  - apply Hno; [reflexivity|exact Hex].
Defined.

(** ** The loader *)

Section LoaderFacts.
Context `{Platform}.

Lemma after_ext {A B : Type} (o : Outcome A) (k k' : A → World → Outcome B) :
  (∀ a w', k a w' = k' a w') → after o k = after o k'.
Proof. intros Hk. unfold after. destruct (result o); by rewrite ?Hk. Qed.

Lemma run_call (c : Call) (w : World) :
  run (call c) w =
    {| result := (handle c w).1; final := (handle c w).2; trace := [c] |}.
Proof. unfold call. simpl. by destruct (handle c w) as [[e|x] w']. Qed.

Lemma run_read_definition (file : string) (w : World) :
  run (read_definition file) w =
    match files w !! file with
    | None => {| result := inl (FileNotFoundError file); final := w;
                 trace := [OpenFile file] |}
    | Some doc =>
        {| result := match json_loads doc with
                     | Some d => inr d
                     | None => inl (JSONDecodeError doc)
                     end;
           final := w; trace := [OpenFile file; JsonLoad doc] |}
    end.
Proof.
  unfold read_definition. cbn [bind call run handle].
  destruct (files w !! file) as [doc|]; [|done].
  by destruct (json_loads doc).
Qed.

(** The loader on a module: read the definition, then one call to the
    module's primitive. *)
Lemma run_load_module (m : nat) (file : string) (pos : PyVal)
    (label : option string) (w : World) :
  run (load_custom_labware (ModuleContext m) file pos label) w =
    after (run (read_definition file) w)
      (fun d w' => run (call (ModuleLoadLabware m d label)) w').
Proof. unfold load_custom_labware. by rewrite run_bind. Qed.

(** The loader on the deck with a slot the caller chose. *)
Lemma run_load_deck_given (file : string) (pos : PyVal)
    (label : option string) (w : World) :
  truthy pos = true →
  run (load_custom_labware ProtocolContext file pos label) w =
    after (run (read_definition file) w)
      (fun d w' => run (call (DeckLoadLabware d pos label)) w').
Proof. intros Hpos. unfold load_custom_labware. by rewrite run_bind, Hpos. Qed.

(** The loader on the deck without a usable slot: the slot finder runs
    between reading the definition and placing the labware. *)
Lemma run_load_deck_auto (file : string) (pos : PyVal)
    (label : option string) (w : World) :
  truthy pos = false →
  run (load_custom_labware ProtocolContext file pos label) w =
    after (run (read_definition file) w) (fun d w' =>
      after (run next_empty_slot w') (fun slot w'' =>
        run (call (DeckLoadLabware d (PyInt (Z.of_nat slot)) label)) w'')).
Proof.
  intros Hpos. unfold load_custom_labware. rewrite run_bind, Hpos.
  cbn [negb]. apply after_ext. intros d w'.
  rewrite !run_bind. unfold after.
  destruct (run next_empty_slot w') as [[e|slot] wf tr]; cbn; [done|].
  by rewrite app_nil_r.
Qed.
End LoaderFacts.

Section LoaderOnDeck.
Context `{Platform}.

(** Slots 1 and 2 taken, slot 3 free, no thermocycler: the finder says 3. *)
Lemma next_empty_slot_third (w : World) :
  has_slot (deck w) 7 = true →
  thermocycler_loaded (deck w) = false →
  is_occupied (deck w) 1 = true →
  is_occupied (deck w) 2 = true →
  is_empty (deck w) 3 = true →
  result (run next_empty_slot w) = inr 3.
Proof.
  intros H7 Hth H1 H2 H3. rewrite run_next_empty_slot_plain by done.
  cbn [logged result]. unfold deck_keys.
  apply scan_smallest; [apply seq_strongly_sorted|apply Forall_seq; lia|].
  apply has_slot_iff in H7.
  split_and!; [apply elem_of_seq; lia|done|].
  intros s' Hs'%elem_of_seq Hlt. apply occupied_not_empty.
  destruct s' as [|[|[|s']]]; [lia|done|done|lia].
Qed.

(** What the loader does on the deck once it has to pick the slot itself. *)
Lemma run_load_deck_auto_loaded (file doc : string) (d : Json) (pos : PyVal)
    (label : option string) (w : World) :
  truthy pos = false →
  files w !! file = Some doc →
  json_loads doc = Some d →
  let o := run (load_custom_labware ProtocolContext file pos label) w in
  (∀ s, result (run next_empty_slot w) = inr s →
     (result o, final o) =
       deck_load_labware_from_definition d (PyInt (Z.of_nat s)) label w ∧
     trace o =
       OpenFile file :: JsonLoad doc :: trace (run next_empty_slot w) ++
       [DeckLoadLabware d (PyInt (Z.of_nat s)) label]) ∧
  (∀ e, result (run next_empty_slot w) = inl e →
     result o = inl e ∧ final o = w ∧
     trace o = OpenFile file :: JsonLoad doc :: trace (run next_empty_slot w)).
Proof.
  intros Hpos Hfile Hjson o. subst o.
  rewrite run_load_deck_auto, run_read_definition, Hfile, Hjson by done.
  unfold after. cbn [result final trace].
  pose proof (next_empty_slot_final w) as Hfin.
  destruct (run next_empty_slot w) as [[e|slot] wf tr];
    cbn [result final trace] in Hfin |- *; subst wf.
  - split; [intros s [=]|]. by intros e' [= ->].
  - split; [|intros e [=]]. intros s [= ->].
    rewrite run_call. cbn [handle result final trace].
    by destruct (deck_load_labware_from_definition _ _ _ _).
Qed.
End LoaderOnDeck.

(** C5: called on the deck with no slot, the loader reads the definition,
    asks [next_empty_slot] about the current deck and hands the slot it
    answers to the deck's placement primitive (or lets its exception escape);
    on a deck with slots 1 and 2 taken, slot 3 free and no thermocycler the
    primitive is asked to place the labware at slot 3. *)
Theorem load_custom_labware_picks_slot {P : Platform} (w : World)
    (file doc : string) (d : Json) (label : option string) :
  files w !! file = Some doc →
  json_loads doc = Some d →
  let o := run (load_custom_labware ProtocolContext file PyNone label) w in
  (∀ s, result (run next_empty_slot w) = inr s →
     (result o, final o) =
       deck_load_labware_from_definition d (PyInt (Z.of_nat s)) label w ∧
     trace o =
       OpenFile file :: JsonLoad doc :: trace (run next_empty_slot w) ++
       [DeckLoadLabware d (PyInt (Z.of_nat s)) label]) ∧
  (∀ e, result (run next_empty_slot w) = inl e →
     result o = inl e ∧ final o = w) ∧
  (has_slot (deck w) 7 = true →
   thermocycler_loaded (deck w) = false →
   is_occupied (deck w) 1 = true →
   is_occupied (deck w) 2 = true →
   is_empty (deck w) 3 = true →
   (result o, final o) = deck_load_labware_from_definition d (PyInt 3) label w).
Proof.
  intros Hfile Hjson o.
  destruct (run_load_deck_auto_loaded file doc d PyNone label w eq_refl Hfile Hjson)
    as [Hok Herr].
  split_and!; [exact Hok| |].
  - intros e He. destruct (Herr e He) as (? & ? & _). done.
  - intros H7 Hth H1 H2 H3.
    by destruct (Hok 3 (next_empty_slot_third w H7 Hth H1 H2 H3)).
Qed.

Lemma load_custom_labware_picks_slot_witness :
  let w := Sim.world Sim.plain_deck in
  let o := run (H := Sim.platform)
             (load_custom_labware ProtocolContext "labware/rack.json" PyNone
                (Some "DNA and Primers"%string)) w in
  files w !! "labware/rack.json"%string = Some "{}"%string ∧
  (result o, final o) =
    Sim.place_on_deck (JObj []) (PyInt 3) (Some "DNA and Primers"%string) w ∧
  deck (final o) !! 2 =
    Some (Some {| item_str := "DNA and Primers on 3" |}).
Proof.
  intros w o.
  assert (Hfile : files w !! "labware/rack.json"%string = Some "{}"%string)
    by reflexivity.
  destruct (load_custom_labware_picks_slot (P := Sim.platform) w
              "labware/rack.json" "{}" (JObj []) (Some "DNA and Primers"%string)
              Hfile eq_refl) as (_ & _ & H3).
  specialize (H3 eq_refl eq_refl eq_refl eq_refl eq_refl).
  split_and!; [exact Hfile|exact H3|].
  apply (f_equal (fun r => deck r.2 !! 2)) in H3. exact H3.
Defined.

(** C6: called on a module, the loader never looks at the deck, so the slot
    finder is not consulted, and no slot is needed: whatever is passed as
    [deck_position] the program is the one for [None], and once the
    definition is read it makes exactly one more call, to the module's
    primitive with the definition and the label and no slot. *)
Theorem load_custom_labware_on_module {P : Platform} (w : World) (m : nat)
    (file : string) (pos : PyVal) (label : option string) :
  let o := run (load_custom_labware (ModuleContext m) file pos label) w in
  Forall (fun c => reads_deck c = false) (trace o) ∧
  load_custom_labware (ModuleContext m) file pos label =
    load_custom_labware (ModuleContext m) file PyNone label ∧
  (∀ doc d, files w !! file = Some doc → json_loads doc = Some d →
     (result o, final o) = module_load_labware_from_definition m d label w ∧
     trace o = [OpenFile file; JsonLoad doc; ModuleLoadLabware m d label]).
Proof.
  intros o. subst o. rewrite run_load_module, run_read_definition.
  split_and!; [|reflexivity|].
  - destruct (files w !! file) as [doc|]; [|by repeat constructor].
    destruct (json_loads doc) as [d|]; [|by repeat constructor].
    unfold after. cbn [result final trace]. rewrite run_call.
    by repeat constructor.
  - intros doc d -> ->. unfold after. cbn [result final trace].
    rewrite run_call. cbn [handle result final trace].
    by destruct (module_load_labware_from_definition _ _ _ _).
Qed.

Lemma load_custom_labware_on_module_witness :
  let w := Sim.world Sim.full_deck in
  let o := run (H := Sim.platform)
             (load_custom_labware (ModuleContext 4) "labware/rack.json" PyNone
                (Some "Reagents"%string)) w in
  result (run (H := Sim.platform) next_empty_slot w) = inl capacity_exhausted ∧
  (result o, final o) =
    Sim.place_in_module 4 (JObj []) (Some "Reagents"%string) w ∧
  trace o = [OpenFile "labware/rack.json"; JsonLoad "{}";
             ModuleLoadLabware 4 (JObj []) (Some "Reagents"%string)].
Proof.
  intros w o. split; [reflexivity|].
  destruct (load_custom_labware_on_module (P := Sim.platform) w 4
              "labware/rack.json" PyNone (Some "Reagents"%string))
    as (_ & _ & Hload).
  exact (Hload "{}"%string (JObj []) eq_refl eq_refl).
Defined.

(** C7, as stated, fails: the claim speaks of every call that supplies a
    slot, but on a module the slot is dropped.  Loading onto the module on 4
    with [deck_position = 3] makes one placement call, to the module's
    primitive, which takes no slot; no call carries the 3, slot 3 of the deck
    stays empty, and the run is the one [deck_position = None] gives. *)
Lemma load_custom_labware_module_drops_slot :
  let w := Sim.world Sim.plain_deck in
  let label := Some "Reagents"%string in
  let o := run (H := Sim.platform)
             (load_custom_labware (ModuleContext 4) "labware/rack.json"
                (PyInt 3) label) w in
  truthy (PyInt 3) = true ∧
  trace o = [OpenFile "labware/rack.json"; JsonLoad "{}";
             ModuleLoadLabware 4 (JObj []) label] ∧
  (∀ d l, DeckLoadLabware d (PyInt 3) l ∉ trace o) ∧
  (∃ lw, result o = inr lw ∧ module_bays (final o) !! 4 = Some lw) ∧
  is_empty (deck (final o)) 3 = true ∧
  o = run (H := Sim.platform)
        (load_custom_labware (ModuleContext 4) "labware/rack.json" PyNone
           label) w.
Proof.
  intros w label o.
  assert (Htr : trace o = [OpenFile "labware/rack.json"; JsonLoad "{}";
                           ModuleLoadLabware 4 (JObj []) label])
    by reflexivity.
  split_and!; [reflexivity|exact Htr| | |reflexivity|reflexivity].
  - intros d l Hin. rewrite Htr in Hin. not_member Hin.
  - eexists. split; reflexivity.
Qed.

(** C7, amended: when the caller supplies a slot (any truthy value) the
    loader never looks at the deck, whatever the parent; on the deck, once
    the definition is read, it makes exactly one more call, to the deck's
    placement primitive with that very slot, and the outcome is the
    primitive's, whatever the slot holds. *)
Theorem load_custom_labware_given_slot {P : Platform} (w : World)
    (file : string) (pos : PyVal) (label : option string) :
  truthy pos = true →
  let o := run (load_custom_labware ProtocolContext file pos label) w in
  (∀ parent,
     Forall (fun c => reads_deck c = false)
       (trace (run (load_custom_labware parent file pos label) w))) ∧
  (∀ doc d, files w !! file = Some doc → json_loads doc = Some d →
     (result o, final o) = deck_load_labware_from_definition d pos label w ∧
     trace o = [OpenFile file; JsonLoad doc; DeckLoadLabware d pos label]).
Proof.
  intros Hpos o. subst o. split.
  - intros [|m]; [rewrite run_load_deck_given by done|rewrite run_load_module];
      rewrite run_read_definition;
      (destruct (files w !! file) as [doc|]; [|by repeat constructor]);
      (destruct (json_loads doc) as [d|]; [|by repeat constructor]);
      unfold after; cbn [result final trace]; rewrite run_call;
      by repeat constructor.
  - rewrite run_load_deck_given, run_read_definition by done.
    intros doc d -> ->. unfold after. cbn [result final trace].
    rewrite run_call. cbn [handle result final trace].
    by destruct (deck_load_labware_from_definition _ _ _ _).
Qed.

Lemma load_custom_labware_given_slot_witness :
  let w := Sim.world Sim.plain_deck in
  let o := run (H := Sim.platform)
             (load_custom_labware ProtocolContext "labware/rack.json"
                (PyInt 1) None) w in
  truthy (PyInt 1) = true ∧
  is_occupied (deck w) 1 = true ∧
  (result o, final o) = Sim.place_on_deck (JObj []) (PyInt 1) None w ∧
  trace o = [OpenFile "labware/rack.json"; JsonLoad "{}";
             DeckLoadLabware (JObj []) (PyInt 1) None].
Proof.
  intros w o. split_and!; [reflexivity|reflexivity|..];
    destruct (load_custom_labware_given_slot (P := Sim.platform) w
                "labware/rack.json" (PyInt 1) None eq_refl) as [_ Hload];
    apply (Hload "{}"%string (JObj []) eq_refl eq_refl).
Defined.

(** C8: when the definition file is missing, or is there but does not parse,
    the loader fails with the definition-load error ([FileNotFoundError] or
    [JSONDecodeError]), the world is as it was, and no placement primitive
    and no deck lookup has been called. *)
Theorem load_custom_labware_bad_definition {P : Platform} (w : World)
    (parent : Parent) (file : string) (pos : PyVal) (label : option string) :
  (files w !! file = None ∨
   ∃ doc, files w !! file = Some doc ∧ json_loads doc = None) →
  let o := run (load_custom_labware parent file pos label) w in
  (∃ e, definition_load_error e = true ∧ result o = inl e) ∧
  final o = w ∧
  Forall (fun c => places_labware c = false ∧ reads_deck c = false) (trace o).
Proof.
  intros Hbad o. subst o. unfold load_custom_labware.
  rewrite run_bind, run_read_definition.
  destruct Hbad as [->|(doc & -> & ->)]; unfold after; cbn [result final trace].
  - split_and!; [|done|by repeat constructor].
    eexists. split; [|reflexivity]. reflexivity.
  - split_and!; [|done|by repeat constructor].
    eexists. split; [|reflexivity]. reflexivity.
Qed.

Lemma load_custom_labware_bad_definition_witness :
  let w := Sim.world Sim.plain_deck in
  let o := run (H := Sim.platform)
             (load_custom_labware ProtocolContext "labware/broken.json" PyNone
                None) w in
  files w !! "labware/broken.json"%string = Some "{"%string ∧
  Sim.parse "{" = None ∧
  (∃ e, definition_load_error e = true ∧ result o = inl e) ∧
  final o = w.
Proof.
  intros w o.
  assert (Hbad : files w !! "labware/broken.json"%string = None ∨
                 ∃ doc, files w !! "labware/broken.json"%string = Some doc ∧
                        json_loads (Platform := Sim.platform) doc = None).
  { right. exists "{"%string. split; reflexivity. }
  destruct (load_custom_labware_bad_definition (P := Sim.platform) w
              ProtocolContext "labware/broken.json" PyNone None Hbad)
    as (He & Hfin & _).
  split_and!; [reflexivity|reflexivity|exact He|exact Hfin].
Defined.

Lemma sim_faithful_placement : faithful_placement Sim.platform.
Proof.
  split.
  - intros d loc label w lw w'. cbn [deck_load_labware_from_definition Sim.platform].
    unfold Sim.place_on_deck. destruct loc as [|b|z|s]; try discriminate.
    destruct (deck_getitem (deck w) (Z.to_nat z)) as [e|[it|]]; try discriminate.
    by intros [= <- _].
  - intros m d label w lw w'. cbn [module_load_labware_from_definition Sim.platform].
    unfold Sim.place_in_module. destruct (module_bays w !! m); try discriminate.
    by intros [= <- _].
Qed.

(** C9: on a platform whose placement primitives build the labware from the
    definition and the label they are given, every successful call of the
    loader returns a labware that carries the definition parsed from the
    file and the caller's label; parent and [deck_position] are arbitrary,
    so this holds for an explicit slot and for an auto-selected one alike. *)
Theorem load_custom_labware_round_trip {P : Platform} (parent : Parent)
    (w : World) (file : string) (pos : PyVal) (label : option string)
    (lw : Labware) :
  faithful_placement P →
  result (run (load_custom_labware parent file pos label) w) = inr lw →
  ∃ doc d, files w !! file = Some doc ∧ json_loads doc = Some d ∧
           lw_definition lw = d ∧ lw_label lw = label.
Proof.
  intros [Hdeck Hmod] Hres.
  destruct parent as [|m]; [destruct (truthy pos) eqn:Hpos|].
  - rewrite run_load_deck_given, run_read_definition in Hres by done.
    destruct (files w !! file) as [doc|]; [|discriminate].
    destruct (json_loads doc) as [d|] eqn:Hjson; [|discriminate].
    unfold after in Hres. cbn [result final trace] in Hres.
    rewrite run_call in Hres. cbn [handle result] in Hres.
    destruct (deck_load_labware_from_definition d pos label w)
      as [r w'] eqn:Hload.
    cbn [fst] in Hres. subst r. apply Hdeck in Hload. by exists doc, d.
  - rewrite run_load_deck_auto, run_read_definition in Hres by done.
    destruct (files w !! file) as [doc|]; [|discriminate].
    destruct (json_loads doc) as [d|] eqn:Hjson; [|discriminate].
    unfold after in Hres. cbn [result final trace] in Hres.
    destruct (run next_empty_slot w) as [[e|s] wf tr];
      cbn [result final trace] in Hres; [discriminate|].
    rewrite run_call in Hres. cbn [handle result] in Hres.
    destruct (deck_load_labware_from_definition d (PyInt (Z.of_nat s)) label wf)
      as [r w'] eqn:Hload.
    cbn [fst] in Hres. subst r. apply Hdeck in Hload. by exists doc, d.
  - rewrite run_load_module, run_read_definition in Hres.
    destruct (files w !! file) as [doc|]; [|discriminate].
    destruct (json_loads doc) as [d|] eqn:Hjson; [|discriminate].
    unfold after in Hres. cbn [result final trace] in Hres.
    rewrite run_call in Hres. cbn [handle result] in Hres.
    destruct (module_load_labware_from_definition m d label w)
      as [r w'] eqn:Hload.
    cbn [fst] in Hres. subst r. apply Hmod in Hload. by exists doc, d.
Qed.

Lemma load_custom_labware_round_trip_witness :
  let w := Sim.world Sim.plain_deck in
  let label := Some "DNA and Primers"%string in
  let picked := {| lw_definition := JObj []; lw_label := label;
                   lw_parent := "3" |} in
  let given := {| lw_definition := JObj []; lw_label := label;
                  lw_parent := "5" |} in
  faithful_placement Sim.platform ∧
  result (run (H := Sim.platform)
            (load_custom_labware ProtocolContext "labware/rack.json" PyNone
               label) w) = inr picked ∧
  result (run (H := Sim.platform)
            (load_custom_labware ProtocolContext "labware/rack.json" (PyInt 5)
               label) w) = inr given ∧
  (∃ doc d, files w !! "labware/rack.json"%string = Some doc ∧
            Sim.parse doc = Some d ∧
            lw_definition picked = d ∧ lw_label picked = label) ∧
  (∃ doc d, files w !! "labware/rack.json"%string = Some doc ∧
            Sim.parse doc = Some d ∧
            lw_definition given = d ∧ lw_label given = label).
Proof.
  intros w label picked given.
  split_and!; [exact sim_faithful_placement|reflexivity|reflexivity|..].
  - exact (load_custom_labware_round_trip (P := Sim.platform) ProtocolContext
             w "labware/rack.json" PyNone label picked
             sim_faithful_placement eq_refl).
  - exact (load_custom_labware_round_trip (P := Sim.platform) ProtocolContext
             w "labware/rack.json" (PyInt 5) label given
             sim_faithful_placement eq_refl).
Defined.

Lemma falsy_values (v : PyVal) :
  truthy v = false ↔ v ∈ [PyNone; PyBool false; PyInt 0; PyStr ""].
Proof.
  rewrite !elem_of_cons, elem_of_nil. split.
  - destruct v as [|b|z|s]; cbn [truthy].
    + auto.
    + intros ->. auto.
    + intros Hz%negb_false_iff%Z.eqb_eq. subst z. auto.
    + intros Hs%negb_false_iff%String.eqb_eq. subst s. auto.
  - intros [->|[->|[->|[->|[]]]]]; reflexivity.
Qed.

(** C10: on the deck, a [deck_position] that is falsy, that is [None],
    [False], [0] or the empty string, gives the very program that [None]
    gives: once the definition is read [next_empty_slot] runs and the slot
    it answers, not the caller's value, goes to the placement primitive. *)
Theorem load_custom_labware_falsy_slot {P : Platform} (w : World)
    (file : string) (pos : PyVal) (label : option string) :
  truthy pos = false →
  pos ∈ [PyNone; PyBool false; PyInt 0; PyStr ""] ∧
  load_custom_labware ProtocolContext file pos label =
    load_custom_labware ProtocolContext file PyNone label ∧
  (∀ doc d s, files w !! file = Some doc → json_loads doc = Some d →
     result (run next_empty_slot w) = inr s →
     let o := run (load_custom_labware ProtocolContext file pos label) w in
     (result o, final o) =
       deck_load_labware_from_definition d (PyInt (Z.of_nat s)) label w ∧
     trace o =
       OpenFile file :: JsonLoad doc :: trace (run next_empty_slot w) ++
       [DeckLoadLabware d (PyInt (Z.of_nat s)) label]).
Proof.
  intros Hpos. split_and!.
  - by apply falsy_values.
  - unfold load_custom_labware. by rewrite Hpos.
  - intros doc d s Hfile Hjson Hs o.
    by apply (run_load_deck_auto_loaded file doc d pos label w Hpos Hfile Hjson).
Qed.

Lemma load_custom_labware_falsy_slot_witness :
  let w := Sim.world Sim.plain_deck in
  let o := run (H := Sim.platform)
             (load_custom_labware ProtocolContext "labware/rack.json" (PyInt 0)
                None) w in
  truthy (PyInt 0) = false ∧
  truthy (PyStr "") = false ∧
  truthy (PyBool false) = false ∧
  truthy PyNone = false ∧
  result (run (H := Sim.platform) next_empty_slot w) = inr 3 ∧
  (result o, final o) = Sim.place_on_deck (JObj []) (PyInt 3) None w.
Proof.
  intros w o. split_and!; [reflexivity..|].
  destruct (load_custom_labware_falsy_slot (P := Sim.platform) w
              "labware/rack.json" (PyInt 0) None eq_refl) as (_ & _ & Hrun).
  by destruct (Hrun "{}"%string (JObj []) 3 eq_refl eq_refl eq_refl).
Defined.

(** ** Further properties of the slot finder *)

(** Putting an item into an existing slot changes that slot only. *)
Lemma deck_getitem_fill (d : list (option DeckItem)) (s1 s : nat)
    (it : DeckItem) :
  has_slot d s1 = true →
  deck_getitem (<[pred s1 := Some it]> d) s =
    if decide (s = s1) then inr (Some it) else deck_getitem d s.
Proof.
  intros Hs1%has_slot_iff. unfold deck_getitem.
  destruct s as [|i]; case_decide as Hs; try lia; [done| |].
  - subst s1. cbn [pred]. by rewrite list_lookup_insert_eq by lia.
  - by rewrite list_lookup_insert_ne by lia.
Qed.

Lemma is_empty_in_keys (d : list (option DeckItem)) (s : nat) :
  is_empty d s = true → s ∈ deck_keys d.
Proof.
  intros Hs%is_empty_has_slot%has_slot_iff. apply elem_of_seq. lia.
Qed.

Lemma elem_of_middle (pre post : list nat) (s : nat) : s ∈ pre ++ s :: post.
Proof. apply elem_of_app. right. apply elem_of_cons. by left. Qed.

(** On a deck with nine slots every candidate slot is a slot of the deck. *)
Lemma candidate_has_slot (d : list (option DeckItem)) (s : nat) :
  has_slot d 9 = true → s ∈ candidate_slots d → has_slot d s = true.
Proof.
  intros H9%has_slot_iff Hs. apply has_slot_iff. revert Hs.
  unfold candidate_slots, deck_keys. destruct (thermocycler_loaded d).
  - intros Hs. each_member Hs lia.
  - intros Hs%elem_of_seq. lia.
Qed.

Section FinderFacts.
Context `{Platform}.

(** The finder answers [s] exactly when slot 7 exists and [s] is the
    smallest empty candidate. *)
Lemma next_empty_slot_smallest (w : World) (s : nat) :
  result (run next_empty_slot w) = inr s ↔
  has_slot (deck w) 7 = true ∧
  smallest_empty_among (candidate_slots (deck w)) (deck w) s.
Proof.
  destruct (has_slot (deck w) 7) eqn:H7.
  - destruct (run_next_empty_slot_candidates w H7) as [-> _].
    destruct (candidate_slots_sorted (deck w)) as [Hsorted Hpos].
    rewrite scan_smallest by done. split; [by intros ?|by intros [_ ?]].
  - rewrite run_next_empty_slot_no_slot_7 by done. cbn [result].
    split; [intros [=]|intros [[=] _]].
Qed.

(** The finder only makes deck lookups. *)
Lemma next_empty_slot_reads_only (w : World) :
  Forall (fun c => reads_deck c = true) (trace (run next_empty_slot w)).
Proof.
  assert (Hscan : ∀ slots,
    Forall (fun c => reads_deck c = true)
      (trace (run (scan_slots slots (Raise capacity_exhausted)) w))).
  { intros slots. apply Forall_forall. intros c Hc.
    apply scan_trace, list_elem_of_fmap in Hc as (s & -> & _). done. }
  destruct (has_slot (deck w) 7) eqn:H7.
  - destruct (thermocycler_loaded (deck w)) eqn:Hth.
    + rewrite run_next_empty_slot_thermocycler by done.
      cbn [logged trace]. by constructor.
    + rewrite run_next_empty_slot_plain by done.
      cbn [logged trace]. by repeat constructor.
  - rewrite run_next_empty_slot_no_slot_7 by done. by repeat constructor.
Qed.

(** With nine slots on the deck the finder raises the capacity error
    exactly when every candidate slot is taken, and returns otherwise. *)
Lemma next_empty_slot_exhausted_iff (w : World) :
  has_slot (deck w) 9 = true →
  (result (run next_empty_slot w) = inl capacity_exhausted ↔
   Forall (fun s => is_occupied (deck w) s = true) (candidate_slots (deck w))) ∧
  ((∃ s, result (run next_empty_slot w) = inr s) ∨
   result (run next_empty_slot w) = inl capacity_exhausted).
Proof.
  intros H9.
  assert (H7 : has_slot (deck w) 7 = true).
  { apply has_slot_iff. apply has_slot_iff in H9. lia. }
  destruct (run_next_empty_slot_candidates w H7) as [-> _].
  destruct (scan_cases (deck w) (candidate_slots (deck w)))
    as [Hall|(pre & s0 & post & Hsplit & Hpre & [Hemp|[e' He']])].
  - rewrite run_scan_exhausted by done. cbn [run result]. naive_solver.
  - rewrite Hsplit, run_scan_found by done. cbn [result]. split; [|eauto].
    split; [done|]. rewrite <- Hsplit. intros Hall. exfalso.
    eapply Forall_forall in Hall; [|rewrite Hsplit; apply elem_of_middle].
    apply occupied_not_empty in Hall. congruence.
  - exfalso.
    assert (Hs0 : has_slot (deck w) s0 = true).
    { apply candidate_has_slot; [done|]. rewrite Hsplit. apply elem_of_middle. }
    unfold has_slot in Hs0. by rewrite He' in Hs0.
Qed.

(** Two decks that agree on the slots a scan visits give the same scan. *)
Lemma scan_agree (slots : list nat) (e : PyExc) (w w' : World) :
  (∀ s, s ∈ slots → deck_getitem (deck w) s = deck_getitem (deck w') s) →
  result (run (scan_slots slots (Raise e)) w) =
    result (run (scan_slots slots (Raise e)) w') ∧
  trace (run (scan_slots slots (Raise e)) w) =
    trace (run (scan_slots slots (Raise e)) w').
Proof.
  induction slots as [|s rest IH]; intros Hag; [done|].
  rewrite !run_scan_cons, <- (Hag s) by (apply elem_of_cons; by left).
  destruct (deck_getitem (deck w) s) as [e'|[it|]]; try done.
  destruct IH as [IHr IHt]; [intros; apply Hag, elem_of_cons; by right|].
  cbn [logged result trace]. by rewrite IHr, IHt.
Qed.

(** Once the slot the finder answered is filled, its next answer is a
    higher slot. *)
Lemma next_empty_slot_after_fill (w w' : World) (s1 s2 : nat) (it : DeckItem) :
  result (run next_empty_slot w) = inr s1 →
  deck w' = <[pred s1 := Some it]> (deck w) →
  result (run next_empty_slot w') = inr s2 →
  s1 < s2.
Proof.
  intros (H7 & Hin1 & Hemp1 & Hsm1)%next_empty_slot_smallest Hd
         (H7' & Hin2 & Hemp2 & _)%next_empty_slot_smallest.
  assert (Hs1 : has_slot (deck w) s1 = true) by by apply is_empty_has_slot.
  assert (Hget : ∀ s, deck_getitem (deck w') s =
            if decide (s = s1) then inr (Some it) else deck_getitem (deck w) s).
  { intros s. rewrite Hd. by apply deck_getitem_fill. }
  assert (Hne : s2 ≠ s1).
  { intros ->. unfold is_empty in Hemp2. rewrite Hget in Hemp2.
    by rewrite decide_True in Hemp2. }
  assert (Hemp2' : is_empty (deck w) s2 = true).
  { unfold is_empty in Hemp2 |- *. rewrite Hget in Hemp2.
    by rewrite decide_False in Hemp2. }
  destruct (decide (s2 < s1)) as [Hlt|]; [exfalso|lia].
  assert (Hin2' : s2 ∈ candidate_slots (deck w)).
  { unfold candidate_slots in Hin1, Hin2 |- *.
    destruct (thermocycler_loaded (deck w)) eqn:Hth.
    - assert (s1 ≠ 7) by (intros ->; not_member Hin1).
      assert (Hth' : thermocycler_loaded (deck w') = true).
      { unfold thermocycler_loaded in Hth |- *. rewrite Hget.
        by rewrite decide_False. }
      by rewrite Hth' in Hin2.
    - by apply is_empty_in_keys. }
  specialize (Hsm1 s2 Hin2' Hlt). congruence.
Qed.
End FinderFacts.

(** X1: on a deck that has the slots up to 9, the only exception
    [next_empty_slot] raises is [IndexError('No Deck Slots Remaining')], and
    it raises it exactly when every candidate slot is taken. *)
Theorem next_empty_slot_failure_modes {P : Platform} (w : World) :
  has_slot (deck w) 9 = true →
  (∀ e, result (run next_empty_slot w) = inl e → e = capacity_exhausted) ∧
  (result (run next_empty_slot w) = inl capacity_exhausted ↔
   Forall (fun s => is_occupied (deck w) s = true) (candidate_slots (deck w))).
Proof.
  intros H9. destruct (next_empty_slot_exhausted_iff w H9) as [Hiff Hor].
  split; [|exact Hiff].
  intros e He. destruct Hor as [[s Hs]|Hcap]; congruence.
Qed.

Lemma next_empty_slot_failure_modes_witness :
  let w := Sim.world Sim.slot_12_free_deck in
  has_slot (deck w) 9 = true ∧
  Forall (fun s => is_occupied (deck w) s = true) (candidate_slots (deck w)) ∧
  result (run (H := Sim.platform) next_empty_slot w) = inl capacity_exhausted.
Proof.
  intros w.
  assert (Hall : Forall (fun s => is_occupied (deck w) s = true)
                   (candidate_slots (deck w))) by (repeat constructor).
  split_and!; [reflexivity|exact Hall|].
  by apply (next_empty_slot_failure_modes (P := Sim.platform) w eq_refl).
Defined.

(** X2: with the thermocycler on 7 the answer of [next_empty_slot], and the
    lookups it makes, depend on slots 1 to 7 and 9 only: two decks that
    agree there give the same result, whatever slots 8, 10, 11, 12 hold. *)
Theorem next_empty_slot_ignores_other_slots {P : Platform} (w w' : World) :
  thermocycler_loaded (deck w) = true →
  (∀ s, s ∈ [1; 2; 3; 4; 5; 6; 7; 9] →
        deck_getitem (deck w) s = deck_getitem (deck w') s) →
  result (run next_empty_slot w) = result (run next_empty_slot w') ∧
  trace (run next_empty_slot w) = trace (run next_empty_slot w').
Proof.
  intros Hth Hag.
  assert (Hth' : thermocycler_loaded (deck w') = true).
  { unfold thermocycler_loaded in Hth |- *. rewrite <- (Hag 7); [done|].
    rewrite !elem_of_cons. auto 10. }
  rewrite !run_next_empty_slot_thermocycler by done. cbn [logged result trace].
  destruct (scan_agree [1; 2; 3; 4; 5; 6; 9] capacity_exhausted w w')
    as [-> ->]; [|done].
  intros s Hs. apply Hag. revert Hs. rewrite !elem_of_cons. intuition.
Qed.

Lemma next_empty_slot_ignores_other_slots_witness :
  let w := Sim.world Sim.thermocycler_deck in
  let w' := Sim.world (<[7 := Sim.labware "X on 8"]>
                         (<[11 := Sim.labware "Y on 12"]> Sim.thermocycler_deck)) in
  thermocycler_loaded (deck w) = true ∧
  is_empty (deck w) 8 = true ∧ is_occupied (deck w') 8 = true ∧
  result (run (H := Sim.platform) next_empty_slot w) =
    result (run (H := Sim.platform) next_empty_slot w').
Proof.
  intros w w'. split_and!; [reflexivity..|].
  apply (next_empty_slot_ignores_other_slots (P := Sim.platform) w w' eq_refl).
  intros s Hs. each_member Hs ltac:(vm_compute; reflexivity).
Defined.

(** X3: allocation moves upwards: if [next_empty_slot] answers [s1] and an
    item is then put into slot [s1], every later answer on that deck is a
    slot above [s1]. *)
Theorem next_empty_slot_moves_up {P : Platform} (w w' : World) (s1 s2 : nat)
    (it : DeckItem) :
  result (run next_empty_slot w) = inr s1 →
  deck w' = <[pred s1 := Some it]> (deck w) →
  result (run next_empty_slot w') = inr s2 →
  s1 < s2.
Proof. apply next_empty_slot_after_fill. Qed.

Lemma next_empty_slot_moves_up_witness :
  let w := Sim.world Sim.plain_deck in
  let w' := Sim.world (<[2 := Sim.labware "C on 3"]> Sim.plain_deck) in
  result (run (H := Sim.platform) next_empty_slot w) = inr 3 ∧
  result (run (H := Sim.platform) next_empty_slot w') = inr 4 ∧
  3 < 4.
Proof.
  intros w w'. split_and!; [reflexivity..|].
  exact (next_empty_slot_moves_up (P := Sim.platform) w w' 3 4
           {| item_str := "C on 3" |} eq_refl eq_refl eq_refl).
Defined.

(** ** Further properties of the loader *)

Lemma reads_not_places (c : Call) :
  reads_deck c = true → places_labware c = false.
Proof. by destruct c. Qed.

Section LoaderMore.
Context `{Platform}.

Lemma run_load_unreadable (parent : Parent) (file : string) (pos : PyVal)
    (label : option string) (w : World) :
  files w !! file = None →
  run (load_custom_labware parent file pos label) w =
    {| result := inl (FileNotFoundError file); final := w;
       trace := [OpenFile file] |}.
Proof.
  intros Hfile. unfold load_custom_labware.
  by rewrite run_bind, run_read_definition, Hfile.
Qed.

Lemma run_load_unparsable (parent : Parent) (file doc : string) (pos : PyVal)
    (label : option string) (w : World) :
  files w !! file = Some doc →
  json_loads doc = None →
  run (load_custom_labware parent file pos label) w =
    {| result := inl (JSONDecodeError doc); final := w;
       trace := [OpenFile file; JsonLoad doc] |}.
Proof.
  intros Hfile Hjson. unfold load_custom_labware.
  by rewrite run_bind, run_read_definition, Hfile, Hjson.
Qed.

(** What a successful automatic placement went through. *)
Lemma run_load_deck_auto_success (file : string) (pos : PyVal)
    (label : option string) (w : World) (lw : Labware) :
  truthy pos = false →
  result (run (load_custom_labware ProtocolContext file pos label) w) = inr lw →
  ∃ doc d s,
    files w !! file = Some doc ∧ json_loads doc = Some d ∧
    result (run next_empty_slot w) = inr s ∧
    deck_load_labware_from_definition d (PyInt (Z.of_nat s)) label w =
      (inr lw, final (run (load_custom_labware ProtocolContext file pos label) w)) ∧
    trace (run (load_custom_labware ProtocolContext file pos label) w) =
      OpenFile file :: JsonLoad doc :: trace (run next_empty_slot w) ++
      [DeckLoadLabware d (PyInt (Z.of_nat s)) label].
Proof.
  intros Hpos Hres.
  destruct (files w !! file) as [doc|] eqn:Hfile;
    [|by rewrite run_load_unreadable in Hres].
  destruct (json_loads doc) as [d|] eqn:Hjson;
    [|by rewrite (run_load_unparsable _ _ doc) in Hres].
  destruct (run_load_deck_auto_loaded file doc d pos label w Hpos Hfile Hjson)
    as [Hok Herr].
  destruct (result (run next_empty_slot w)) as [e|s] eqn:Hs.
  - destruct (Herr e eq_refl) as (He & _). congruence.
  - destruct (Hok s eq_refl) as [Hpair Htrace].
    exists doc, d, s. split_and!; try done.
    rewrite <- Hpair. by rewrite Hres.
Qed.
End LoaderMore.

Lemma sim_registers_on_deck : registers_on_deck Sim.platform.
Proof.
  intros d s label w lw w'.
  cbn [deck_load_labware_from_definition Sim.platform].
  unfold Sim.place_on_deck. rewrite Nat2Z.id.
  destruct (deck_getitem (deck w) s) as [e|[it|]]; try discriminate.
  intros [= _ <-]. by eexists.
Qed.

(** X4: on a platform whose deck placement fills the slot it is given, two
    successive loads that leave the slot to the loader both end in a
    placement call, and the second is at a higher slot than the first. *)
Theorem load_custom_labware_slots_increase {P : Platform} (w : World)
    (file1 file2 : string) (pos1 pos2 : PyVal) (label1 label2 : option string)
    (lw1 lw2 : Labware) :
  registers_on_deck P →
  truthy pos1 = false →
  truthy pos2 = false →
  let o1 := run (load_custom_labware ProtocolContext file1 pos1 label1) w in
  let o2 := run (load_custom_labware ProtocolContext file2 pos2 label2) (final o1) in
  result o1 = inr lw1 →
  result o2 = inr lw2 →
  ∃ d1 d2 s1 s2,
    last (trace o1) = Some (DeckLoadLabware d1 (PyInt (Z.of_nat s1)) label1) ∧
    last (trace o2) = Some (DeckLoadLabware d2 (PyInt (Z.of_nat s2)) label2) ∧
    s1 < s2.
Proof.
  intros Hreg Hpos1 Hpos2 o1 o2 Hres1 Hres2.
  destruct (run_load_deck_auto_success file1 pos1 label1 w lw1 Hpos1 Hres1)
    as (doc1 & d1 & s1 & _ & _ & Hs1 & Hload1 & Htr1).
  destruct (run_load_deck_auto_success file2 pos2 label2 (final o1) lw2 Hpos2 Hres2)
    as (doc2 & d2 & s2 & _ & _ & Hs2 & _ & Htr2).
  apply Hreg in Hload1 as [it Hdeck].
  exists d1, d2, s1, s2. split_and!.
  - subst o1. rewrite Htr1, !app_comm_cons. apply last_snoc.
  - subst o2. rewrite Htr2, !app_comm_cons. apply last_snoc.
  - by eapply next_empty_slot_after_fill.
Qed.

Lemma load_custom_labware_slots_increase_witness :
  let w := Sim.world Sim.plain_deck in
  let o1 := run (H := Sim.platform)
              (load_custom_labware ProtocolContext "labware/rack.json" PyNone
                 (Some "first"%string)) w in
  let o2 := run (H := Sim.platform)
              (load_custom_labware ProtocolContext "labware/rack.json" PyNone
                 (Some "second"%string)) (final o1) in
  registers_on_deck Sim.platform ∧
  last (trace o1) = Some (DeckLoadLabware (JObj []) (PyInt 3) (Some "first"%string)) ∧
  last (trace o2) = Some (DeckLoadLabware (JObj []) (PyInt 4) (Some "second"%string)) ∧
  ∃ d1 d2 s1 s2,
    last (trace o1) = Some (DeckLoadLabware d1 (PyInt (Z.of_nat s1)) (Some "first"%string)) ∧
    last (trace o2) = Some (DeckLoadLabware d2 (PyInt (Z.of_nat s2)) (Some "second"%string)) ∧
    s1 < s2.
Proof.
  intros w o1 o2.
  split_and!; [exact sim_registers_on_deck|reflexivity|reflexivity|].
  exact (load_custom_labware_slots_increase (P := Sim.platform) w
           "labware/rack.json" "labware/rack.json" PyNone PyNone
           (Some "first"%string) (Some "second"%string)
           {| lw_definition := JObj []; lw_label := Some "first"%string;
              lw_parent := "3" |}
           {| lw_definition := JObj []; lw_label := Some "second"%string;
              lw_parent := "4" |}
           sim_registers_on_deck eq_refl eq_refl eq_refl eq_refl).
Defined.

Lemma filter_deck_reads (l : list Call) :
  Forall (fun c => reads_deck c = true) l →
  filter (fun c => reads_deck c = false) l = [].
Proof.
  induction 1 as [|c l Hc _ IH]; [done|].
  rewrite filter_cons_False by congruence. exact IH.
Qed.

(** X5: naming the slot the finder would pick changes nothing: when
    [next_empty_slot] answers [s] on the current deck, loading with
    [deck_position = s] ends with the same result and the same world as
    loading with no (or a falsy) position, and makes the same calls in the
    same order except that the deck lookups are left out. *)
Theorem load_custom_labware_explicit_equals_auto {P : Platform} (w : World)
    (file : string) (pos : PyVal) (label : option string) (s : nat) :
  truthy pos = false →
  result (run next_empty_slot w) = inr s →
  let given := run (load_custom_labware ProtocolContext file
                      (PyInt (Z.of_nat s)) label) w in
  let auto := run (load_custom_labware ProtocolContext file pos label) w in
  result given = result auto ∧ final given = final auto ∧
  trace given = filter (fun c => reads_deck c = false) (trace auto).
Proof.
  intros Hpos Hs given auto. subst given auto.
  assert (Hpos' : truthy (PyInt (Z.of_nat s)) = true).
  { apply next_empty_slot_smallest in Hs as (_ & _ & Hemp & _).
    apply is_empty_has_slot, has_slot_iff in Hemp. cbn [truthy].
    apply negb_true_iff, Z.eqb_neq. lia. }
  rewrite run_load_deck_given, run_load_deck_auto by done.
  rewrite run_read_definition.
  destruct (files w !! file) as [doc|]; [|done].
  destruct (json_loads doc) as [d|]; [|done].
  unfold after. cbn [result final trace].
  pose proof (next_empty_slot_final w) as Hfin.
  pose proof (next_empty_slot_reads_only w) as Hreads.
  destruct (run next_empty_slot w) as [r wf tr].
  cbn [result final trace] in Hs, Hfin, Hreads |- *. subst r wf.
  split_and!; [done|done|].
  rewrite run_call. cbn [trace app].
  rewrite !filter_cons_True, filter_app, filter_deck_reads by done.
  by rewrite filter_cons_True by done.
Qed.

Lemma load_custom_labware_explicit_equals_auto_witness :
  let w := Sim.world Sim.plain_deck in
  let given := run (H := Sim.platform)
                 (load_custom_labware ProtocolContext "labware/rack.json"
                    (PyInt 3) None) w in
  let auto := run (H := Sim.platform)
                (load_custom_labware ProtocolContext "labware/rack.json"
                   (PyStr "") None) w in
  truthy (PyStr "") = false ∧
  result (run (H := Sim.platform) next_empty_slot w) = inr 3 ∧
  trace auto = [OpenFile "labware/rack.json"; JsonLoad "{}"; DeckGetItem 7;
                DeckIter; DeckGetItem 1; DeckGetItem 2; DeckGetItem 3;
                DeckLoadLabware (JObj []) (PyInt 3) None] ∧
  trace given = [OpenFile "labware/rack.json"; JsonLoad "{}";
                 DeckLoadLabware (JObj []) (PyInt 3) None] ∧
  result given = result auto ∧ final given = final auto ∧
  trace given = filter (fun c => reads_deck c = false) (trace auto).
Proof.
  intros w given auto. split_and!; [reflexivity..| | |];
    apply (load_custom_labware_explicit_equals_auto (P := Sim.platform) w
             "labware/rack.json" (PyStr "") None 3 eq_refl eq_refl).
Defined.

(** X6: every call of the loader opens the definition file first and
    registers labware at most once: either it raises with the world as it
    was and no placement call made, or its last call, and its only placement
    call, is the parent's primitive, run from the unchanged world with the
    caller's label, whose outcome is the loader's outcome. *)
Theorem load_custom_labware_places_once {P : Platform} (w : World)
    (parent : Parent) (file : string) (pos : PyVal) (label : option string) :
  let o := run (load_custom_labware parent file pos label) w in
  ∃ pre, Forall (fun c => places_labware c = false) pre ∧
    ((trace o = OpenFile file :: pre ∧ final o = w ∧ ∃ e, result o = inl e) ∨
     (∃ d loc, parent = ProtocolContext ∧
        trace o = OpenFile file :: pre ++ [DeckLoadLabware d loc label] ∧
        (result o, final o) = deck_load_labware_from_definition d loc label w) ∨
     (∃ m d, parent = ModuleContext m ∧
        trace o = OpenFile file :: pre ++ [ModuleLoadLabware m d label] ∧
        (result o, final o) = module_load_labware_from_definition m d label w)).
Proof.
  intros o. subst o.
  destruct (files w !! file) as [doc|] eqn:Hfile.
  2:{ exists []. split; [done|]. left. rewrite run_load_unreadable by done.
      split_and!; [done|done|by eexists]. }
  destruct (json_loads doc) as [d|] eqn:Hjson.
  2:{ exists [JsonLoad doc]. split; [by repeat constructor|]. left.
      rewrite (run_load_unparsable _ _ doc) by done.
      split_and!; [done|done|by eexists]. }
  destruct parent as [|m]; [destruct (truthy pos) eqn:Hpos|].
  - exists [JsonLoad doc]. split; [by repeat constructor|]. right. left.
    exists d, pos. split; [done|].
    rewrite run_load_deck_given, run_read_definition, Hfile, Hjson by done.
    unfold after. cbn [result final trace]. rewrite run_call.
    cbn [handle result final trace].
    by destruct (deck_load_labware_from_definition _ _ _ _).
  - destruct (run_load_deck_auto_loaded file doc d pos label w Hpos Hfile Hjson)
      as [Hok Herr].
    exists (JsonLoad doc :: trace (run next_empty_slot w)). split.
    { constructor; [done|].
      eapply Forall_impl; [apply next_empty_slot_reads_only|].
      apply reads_not_places. }
    destruct (result (run next_empty_slot w)) as [e|s] eqn:Hs.
    + left. destruct (Herr e eq_refl) as (He & Hfin & Htr).
      split_and!; [done|done|by eexists].
    + right. left. destruct (Hok s eq_refl) as [Hpair Htr].
      exists d, (PyInt (Z.of_nat s)). by split_and!.
  - exists [JsonLoad doc]. split; [by repeat constructor|]. right. right.
    exists m, d. split; [done|].
    rewrite run_load_module, run_read_definition, Hfile, Hjson.
    unfold after. cbn [result final trace]. rewrite run_call.
    cbn [handle result final trace].
    by destruct (module_load_labware_from_definition _ _ _ _).
Qed.

(** X7: on a deck that has the slots up to 9 and no allocatable slot, a
    load that leaves the slot to the loader reads the definition, finds no
    slot and fails with [IndexError('No Deck Slots Remaining')]: the world
    is as it was and no placement primitive has been called. *)
Theorem load_custom_labware_full_deck {P : Platform} (w : World)
    (file doc : string) (d : Json) (pos : PyVal) (label : option string) :
  has_slot (deck w) 9 = true →
  (∀ s, allocatable (deck w) s = false) →
  truthy pos = false →
  files w !! file = Some doc →
  json_loads doc = Some d →
  let o := run (load_custom_labware ProtocolContext file pos label) w in
  result o = inl capacity_exhausted ∧ final o = w ∧
  Forall (fun c => places_labware c = false) (trace o).
Proof.
  intros H9 Hfull Hpos Hfile Hjson o.
  assert (Hcap : result (run next_empty_slot w) = inl capacity_exhausted).
  { apply (next_empty_slot_exhausted_iff w H9).
    apply Forall_forall. intros s Hs. apply slot_occupied_or_empty.
    - by apply candidate_has_slot.
    - rewrite <- (candidate_allocatable _ _ Hs). apply Hfull. }
  destruct (run_load_deck_auto_loaded file doc d pos label w Hpos Hfile Hjson)
    as [_ Herr].
  destruct (Herr _ Hcap) as (Hres & Hfin & Htr).
  split_and!; [done|done|]. subst o. rewrite Htr.
  do 2 (constructor; [done|]).
  eapply Forall_impl; [apply next_empty_slot_reads_only|].
  apply reads_not_places.
Qed.

Lemma load_custom_labware_full_deck_witness :
  let w := Sim.world Sim.full_deck in
  let o := run (H := Sim.platform)
             (load_custom_labware ProtocolContext "labware/rack.json" PyNone
                (Some "DNA and Primers"%string)) w in
  has_slot (deck w) 9 = true ∧
  files w !! "labware/rack.json"%string = Some "{}"%string ∧
  result o = inl capacity_exhausted ∧ final o = w ∧
  Forall (fun c => places_labware c = false) (trace o).
Proof.
  intros w o.
  assert (Hfull : ∀ s, allocatable (deck w) s = false).
  { intros s. unfold allocatable.
    do 13 (destruct s as [|s]; [reflexivity|]). reflexivity. }
  split_and!; [reflexivity|reflexivity|..];
    apply (load_custom_labware_full_deck (P := Sim.platform) w
             "labware/rack.json" "{}" (JObj []) PyNone
             (Some "DNA and Primers"%string) eq_refl Hfull eq_refl eq_refl eq_refl).
Defined.

(** X8: with the thermocycler on 7, a load that leaves the slot to the
    loader only ever asks the deck's primitive for an empty slot among 1 to
    6 and 9: no placement call of such a run names a slot under the
    thermocycler, slot 7 included, or slot 12. *)
Theorem load_custom_labware_avoids_thermocycler {P : Platform} (w : World)
    (file : string) (pos : PyVal) (label : option string) :
  thermocycler_loaded (deck w) = true →
  truthy pos = false →
  let o := run (load_custom_labware ProtocolContext file pos label) w in
  ∀ c, c ∈ trace o → places_labware c = true →
    ∃ d s, c = DeckLoadLabware d (PyInt (Z.of_nat s)) label ∧
           s ∈ [1; 2; 3; 4; 5; 6; 9] ∧ is_empty (deck w) s = true.
Proof.
  intros Hth Hpos o c Hc Hplaces. subst o.
  destruct (files w !! file) as [doc|] eqn:Hfile.
  2:{ rewrite run_load_unreadable in Hc by done. cbn [trace] in Hc.
      apply list_elem_of_singleton in Hc as ->. discriminate. }
  destruct (json_loads doc) as [d|] eqn:Hjson.
  2:{ rewrite (run_load_unparsable _ _ doc) in Hc by done. cbn [trace] in Hc.
      apply elem_of_cons in Hc as [->|Hc]; [discriminate|].
      apply list_elem_of_singleton in Hc as ->. discriminate. }
  destruct (run_load_deck_auto_loaded file doc d pos label w Hpos Hfile Hjson)
    as [Hok Herr].
  assert (Hreads : ∀ c', c' ∈ trace (run next_empty_slot w) →
                         places_labware c' = false).
  { intros c' Hc'. apply reads_not_places.
    by eapply Forall_forall in Hc'; [|apply next_empty_slot_reads_only]. }
  destruct (result (run next_empty_slot w)) as [e|s] eqn:Hs.
  - destruct (Herr e eq_refl) as (_ & _ & Htr). rewrite Htr in Hc.
    apply elem_of_cons in Hc as [->|Hc]; [discriminate|].
    apply elem_of_cons in Hc as [->|Hc]; [discriminate|].
    apply Hreads in Hc. congruence.
  - destruct (Hok s eq_refl) as [_ Htr]. rewrite Htr in Hc.
    apply elem_of_cons in Hc as [->|Hc]; [discriminate|].
    apply elem_of_cons in Hc as [->|Hc]; [discriminate|].
    apply elem_of_app in Hc as [Hc|Hc]; [apply Hreads in Hc; congruence|].
    apply list_elem_of_singleton in Hc as ->. exists d, s. split; [done|].
    apply next_empty_slot_smallest in Hs as (_ & Hin & Hemp & _).
    unfold candidate_slots in Hin. by rewrite Hth in Hin.
Qed.

Lemma load_custom_labware_avoids_thermocycler_witness :
  let w := Sim.world Sim.thermocycler_deck in
  let o := run (H := Sim.platform)
             (load_custom_labware ProtocolContext "labware/rack.json" PyNone
                None) w in
  thermocycler_loaded (deck w) = true ∧
  DeckLoadLabware (JObj []) (PyInt 3) None ∈ trace o ∧
  ∃ d s, DeckLoadLabware (JObj []) (PyInt 3) None =
           DeckLoadLabware d (PyInt (Z.of_nat s)) None ∧
         s ∈ [1; 2; 3; 4; 5; 6; 9] ∧ is_empty (deck w) s = true.
Proof.
  intros w o.
  assert (Hin : DeckLoadLabware (JObj []) (PyInt 3) None ∈ trace o).
  { assert (Htr : trace o =
      [OpenFile "labware/rack.json"; JsonLoad "{}"; DeckGetItem 7;
       DeckGetItem 1; DeckGetItem 2; DeckGetItem 3;
       DeckLoadLabware (JObj []) (PyInt 3) None]) by reflexivity.
    rewrite Htr, !elem_of_cons. auto 20. }
  split_and!; [reflexivity|exact Hin|].
  exact (load_custom_labware_avoids_thermocycler (P := Sim.platform) w
           "labware/rack.json" PyNone None eq_refl eq_refl _ Hin eq_refl).
Defined.
